(** * StoryGenerator: the generation and clear handlers of the story panel

    A shallow embedding of [src/app/quests/components/StoryGenerator/index.tsx]:
    the [activeTasks] filter, the [handleGenerateStory] and [handleClearStory]
    event handlers, and the JavaScript operations they rely on
    (truthiness, [||], property access, [new Error], [try]/[catch]/[finally],
    [await]). The handlers are written in a small monad of programs whose
    commands are the state setters, the store calls, the console and the two
    suspension points ([fetch] and [response.json()]); [run] interprets a
    program against a network and records what it did. *)

From stdpp Require Import base option list strings pretty.

Open Scope string_scope.

(** ** Data model *)

(** Parsed JSON, the type of [await response.json()]. A number is carried by
    the two observations JavaScript code can make of it without arithmetic:
    whether it is falsy (zero) and its [Number::toString] text. An object is
    the list of its own properties, keys distinct, as [JSON.parse] builds it. *)
#[warnings="-register-all"]
Inductive JSON : Type :=
| JNull
| JBool (b : bool)
| JNum (zero : bool) (text : string)
| JStr (s : string)
| JArr (items : list JSON)
| JObj (fields : list (string * JSON)).

(** A thrown value as the [catch] clause sees it: an instance of [Error]
    with its [name] and [message], or any other value, carried by its
    stringification. *)
Inductive Thrown : Type :=
| ErrorObject (name message : string)
| NotAnError (stringified : string).

(** Modelled from the spec: the [Task] type is declared by the store
    ([@/store/story], absent); a task is an item with at least a [status]
    attribute, the other attributes are kept as one opaque [detail]. *)
Record Task : Type := { detail : string; status : string }.

(** Modelled from the spec: the [Settings] type is declared by the store
    (absent); the three fields the handler tests may be empty or missing. *)
Record Settings : Type := {
  universe : option string;
  character : option string;
  narrativeStyle : option string
}.

(** Modelled from the spec: the model selector is an opaque identifier. *)
Definition ModelId : Type := string.

(** What [useStoryStore()] hands to the component. *)
Record Store : Type := {
  tasks : list Task;
  settings : Settings;
  aiModel : ModelId;
  story : option JSON
}.

(** The component: its three [useState] cells and the store it reads. *)
Record State : Type := {
  store : Store;
  isGenerating : bool;
  error : option string;
  showStory : bool
}.

(** The first render: [useState(false)], [useState(null)], [useState(false)]. *)
Definition mount (s : Store) : State :=
  {| store := s; isGenerating := false; error := None; showStory := false |}.

(** The object given to [JSON.stringify] as the request body. *)
Record Payload : Type := {
  payload_tasks : list Task;
  payload_settings : Settings;
  payload_model : ModelId
}.

Record Request : Type := {
  url : string;
  method : string;
  headers : list (string * string);
  body : Payload
}.

(** How reading a response body as JSON ends: a value, a [SyntaxError]
    for a body that is not valid JSON, or any other rejection of the read. *)
Inductive Body : Type :=
| Parsed (v : JSON)
| Malformed (message : string)
| Unreadable (e : Thrown).

Record Response : Type := { ok : bool; content : Body }.

(** How the promise returned by [fetch] settles. *)
Inductive FetchOutcome : Type :=
| Rejected (e : Thrown)
| Resolved (r : Response).

Definition Network : Type := Request → FetchOutcome.

(** ** JavaScript operations used by the handlers *)

Module JS.

(** [Boolean(v)] on a parsed value. *)
Definition truthy (v : JSON) : bool :=
  match v with
  | JNull => false
  | JBool b => b
  | JNum zero _ => negb zero
  | JStr s => negb (String.eqb s EmptyString)
  | JArr _ | JObj _ => true
  end.

(** [Boolean(s)] for a string that may be missing. *)
Definition truthy_str (x : option string) : bool :=
  match x with
  | None => false
  | Some s => negb (String.eqb s EmptyString)
  end.

(** [x || y], where [x] may be [undefined]. *)
Definition or (x : option JSON) (y : JSON) : JSON :=
  match x with
  | Some v => if truthy v then v else y
  | None => y
  end.

(** [ToString(v)]. An array joins the strings of its elements with commas,
    [null] elements giving the empty string. A parsed object is
    ["[object Object]"], unless it has an own [toString] property: that
    property is not callable, [valueOf] then returns the object itself, and
    the conversion ends in a [TypeError]. *)
Fixpoint ToString (v : JSON) : Thrown + string :=
  match v with
  | JNull => inr "null"
  | JBool true => inr "true"
  | JBool false => inr "false"
  | JNum _ text => inr text
  | JStr s => inr s
  | JArr items =>
      (fix join (l : list JSON) : Thrown + string :=
         match l with
         | [] => inr EmptyString
         | x :: rest =>
             match (match x with JNull => inr EmptyString | _ => ToString x end) with
             | inl e => inl e
             | inr here =>
                 match rest with
                 | [] => inr here
                 | _ :: _ =>
                     match join rest with
                     | inl e => inl e
                     | inr others => inr (here ++ "," ++ others)
                     end
                 end
             end
         end) items
  | JObj fields =>
      if existsb (λ field, String.eqb (fst field) "toString") fields
      then inl (ErrorObject "TypeError" "Cannot convert object to primitive value")
      else inr "[object Object]"
  end.

(** [new Error(v)]: the error built, unless converting [v] to its message
    throws. *)
Definition new_Error (v : JSON) : Thrown + Thrown :=
  match ToString v with
  | inl e => inl e
  | inr message => inr (ErrorObject "Error" message)
  end.

Fixpoint own_property (key : string) (fields : list (string * JSON)) : option JSON :=
  match fields with
  | [] => None
  | (k, v) :: rest => if String.eqb k key then Some v else own_property key rest
  end.

(** [v.key] for a parsed value [v]: a [TypeError] on [null], the own
    property of an object, [undefined] otherwise. *)
Definition get (v : JSON) (key : string) : Thrown + option JSON :=
  match v with
  | JNull =>
      inl (ErrorObject "TypeError"
             ("Cannot read properties of null (reading '" ++ key ++ "')"))
  | JObj fields => inr (own_property key fields)
  | _ => inr None
  end.

(** What [await response.json()] produces. *)
Definition json (r : Response) : Thrown + JSON :=
  match content r with
  | Parsed v => inr v
  | Malformed message => inl (ErrorObject "SyntaxError" message)
  | Unreadable e => inl e
  end.

End JS.

(** ** Programs *)

(** The effects of a handler that do not suspend it. *)
Inductive Action : Type :=
| SetIsGenerating (b : bool)
| SetError (e : option string)
| SetShowStory (b : bool)
| SetStory (s : JSON)
| ClearStory
| ConsoleLog (label : string) (v : JSON)
| ConsoleError (label : string) (e : Thrown).

(** A handler body: it returns, throws, performs an action, or suspends on
    [fetch] or on reading a response body and resumes with the outcome. *)
Inductive Prog (A : Type) : Type :=
| Ret (a : A)
| Throw (e : Thrown)
| Do (a : Action) (k : Prog A)
| AwaitFetch (req : Request) (k : FetchOutcome → Prog A)
| AwaitJson (r : Response) (k : Thrown + JSON → Prog A).

Arguments Ret {A} a.
Arguments Throw {A} e.
Arguments Do {A} a k.
Arguments AwaitFetch {A} req k.
Arguments AwaitJson {A} r k.

Fixpoint prog_bind {A B : Type} (f : A → Prog B) (p : Prog A) : Prog B :=
  match p with
  | Ret a => f a
  | Throw e => Throw e
  | Do a k => Do a (prog_bind f k)
  | AwaitFetch req k => AwaitFetch req (λ o, prog_bind f (k o))
  | AwaitJson r k => AwaitJson r (λ o, prog_bind f (k o))
  end.

#[global] Instance Prog_ret : MRet Prog := @Ret.
#[global] Instance Prog_bind : MBind Prog := @prog_bind.

(** [try { p } catch (err) { h err }]. *)
Fixpoint catch {A : Type} (p : Prog A) (h : Thrown → Prog A) : Prog A :=
  match p with
  | Ret a => Ret a
  | Throw e => h e
  | Do a k => Do a (catch k h)
  | AwaitFetch req k => AwaitFetch req (λ o, catch (k o) h)
  | AwaitJson r k => AwaitJson r (λ o, catch (k o) h)
  end.

(** [try { p } finally { f }]: [f] runs on both exits, then the exit of [p]
    is resumed. *)
Fixpoint finally {A : Type} (p : Prog A) (f : Prog unit) : Prog A :=
  match p with
  | Ret a => f ;; Ret a
  | Throw e => f ;; Throw e
  | Do a k => Do a (finally k f)
  | AwaitFetch req k => AwaitFetch req (λ o, finally (k o) f)
  | AwaitJson r k => AwaitJson r (λ o, finally (k o) f)
  end.

Definition try_catch_finally {A : Type}
    (p : Prog A) (h : Thrown → Prog A) (f : Prog unit) : Prog A :=
  finally (catch p h) f.

Definition perform (a : Action) : Prog unit := Do a (Ret tt).

Definition setIsGenerating (b : bool) : Prog unit := perform (SetIsGenerating b).
Definition setError (e : option string) : Prog unit := perform (SetError e).
Definition setShowStory (b : bool) : Prog unit := perform (SetShowStory b).
Definition setStory (s : JSON) : Prog unit := perform (SetStory s).
Definition clearStory : Prog unit := perform ClearStory.
Definition console_log (label : string) (v : JSON) : Prog unit :=
  perform (ConsoleLog label v).
Definition console_error (label : string) (e : Thrown) : Prog unit :=
  perform (ConsoleError label e).

(** Settling of a promise under [await]: the value, or the rejection thrown. *)
Definition settle {A : Type} (o : Thrown + A) : Prog A :=
  match o with
  | inl e => Throw e
  | inr a => Ret a
  end.

(** [await fetch(url, init)]. *)
Definition fetch (req : Request) : Prog Response :=
  AwaitFetch req (λ o, match o with
                       | Rejected e => Throw e
                       | Resolved r => Ret r
                       end).

(** [await response.json()]. *)
Definition json (r : Response) : Prog JSON := AwaitJson r settle.

(** ** The component *)

(** [tasks.filter(task => task.status === 'active')]. *)
Definition activeTasks (ts : list Task) : list Task :=
  filter (λ task, status task = "active") ts.

Definition generate_request (s : Store) : Request :=
  {| url := "/api/generate";
     method := "POST";
     headers := [("Content-Type", "application/json")];
     body := {| payload_tasks := activeTasks (tasks s);
                payload_settings := settings s;
                payload_model := aiModel s |} |}.

(** The message kept by the [catch] clause:
    [err instanceof Error ? err.message : 'Failed to generate story']. *)
Definition caught_message (err : Thrown) : string :=
  match err with
  | ErrorObject _ message => message
  | NotAnError _ => "Failed to generate story"
  end.

Definition handleGenerateStory (s : Store) : Prog unit :=
  if decide (length (activeTasks (tasks s)) = 0) then
    setError (Some "No active tasks to generate story from")
  else if negb (JS.truthy_str (universe (settings s)))
          || negb (JS.truthy_str (character (settings s)))
          || negb (JS.truthy_str (narrativeStyle (settings s))) then
    setError (Some "Please configure your story settings first")
  else
    setIsGenerating true ;;
    setError None ;;
    try_catch_finally
      (response ← fetch (generate_request s);
       (if negb (ok response) then
          errorData ← json response;
          embedded ← settle (JS.get errorData "error");
          err ← settle (JS.new_Error (JS.or embedded (JStr "Failed to generate story")));
          Throw err
        else Ret tt) ;;
       story ← json response;
       console_log "Generated story:" story ;;
       setStory story ;;
       setShowStory true)
      (λ err,
         console_error "Story generation error:" err ;;
         setError (Some (caught_message err)))
      (setIsGenerating false).

Definition handleClearStory : Prog unit :=
  clearStory ;;
  setShowStory false.

(** ** Running a handler *)

(** Modelled from the spec: the store's [setStory] replaces the persisted
    story and [clearStory] deletes it ([@/store/story] is absent). *)
Definition store_setStory (v : JSON) (s : Store) : Store :=
  {| tasks := tasks s; settings := settings s; aiModel := aiModel s;
     story := Some v |}.

Definition store_clearStory (s : Store) : Store :=
  {| tasks := tasks s; settings := settings s; aiModel := aiModel s;
     story := None |}.

Definition on_store (f : Store → Store) (σ : State) : State :=
  {| store := f (store σ); isGenerating := isGenerating σ;
     error := error σ; showStory := showStory σ |}.

Definition apply_action (a : Action) (σ : State) : State :=
  match a with
  | SetIsGenerating b =>
      {| store := store σ; isGenerating := b;
         error := error σ; showStory := showStory σ |}
  | SetError e =>
      {| store := store σ; isGenerating := isGenerating σ;
         error := e; showStory := showStory σ |}
  | SetShowStory b =>
      {| store := store σ; isGenerating := isGenerating σ;
         error := error σ; showStory := b |}
  | SetStory v => on_store (store_setStory v) σ
  | ClearStory => on_store store_clearStory σ
  | ConsoleLog _ _ | ConsoleError _ _ => σ
  end.

(** What the handler is suspended on. *)
Inductive Wait : Type :=
| OnFetch (req : Request)
| OnJson (r : Response).

(** One entry of a run: an action performed, or a suspension together with
    the state the page shows while the handler is suspended. *)
Inductive Event : Type :=
| Performed (a : Action)
| Suspended (on : Wait) (shown : State).

Record Run (A : Type) : Type := {
  trace : list Event;
  final : State;
  exit : Thrown + A
}.

Arguments trace {A} _.
Arguments final {A} _.
Arguments exit {A} _.

Definition logged {A : Type} (ev : Event) (r : Run A) : Run A :=
  {| trace := ev :: trace r; final := final r; exit := exit r |}.

Fixpoint run {A : Type} (net : Network) (p : Prog A) (σ : State) : Run A :=
  match p with
  | Ret a => {| trace := []; final := σ; exit := inr a |}
  | Throw e => {| trace := []; final := σ; exit := inl e |}
  | Do a k => logged (Performed a) (run net k (apply_action a σ))
  | AwaitFetch req k =>
      logged (Suspended (OnFetch req) σ) (run net (k (net req)) σ)
  | AwaitJson r k =>
      logged (Suspended (OnJson r) σ) (run net (k (JS.json r)) σ)
  end.

(** The requests a run issued, in order. *)
Definition requests (tr : list Event) : list Request :=
  omap (λ ev, match ev with
              | Suspended (OnFetch req) _ => Some req
              | _ => None
              end) tr.

(** The actions a run performed, in order. *)
Definition actions (tr : list Event) : list Action :=
  omap (λ ev, match ev with
              | Performed a => Some a
              | _ => None
              end) tr.

(** The states shown at the suspensions of a run, in order. *)
Definition shown_states (tr : list Event) : list State :=
  omap (λ ev, match ev with
              | Suspended _ σ => Some σ
              | _ => None
              end) tr.

Definition is_setStory (a : Action) : bool :=
  match a with SetStory _ => true | _ => false end.

Definition is_setIsGenerating (a : Action) : bool :=
  match a with SetIsGenerating _ => true | _ => false end.

(** ** Vocabulary of the specification *)

(** The eligible count: the number of active tasks. *)
Definition eligible_count (s : Store) : nat := length (activeTasks (tasks s)).

(** A settings field is missing when it is absent or the empty string. *)
Definition missing (x : option string) : Prop := x = None ∨ x = Some EmptyString.

Definition settings_incomplete (st : Settings) : Prop :=
  missing (universe st) ∨ missing (character st) ∨ missing (narrativeStyle st).

(** Validation lets an invocation through. *)
Definition ready (s : Store) : Prop :=
  eligible_count s ≠ 0 ∧ ¬ settings_incomplete (settings s).

(** The attempt succeeds: the response indicates success and its body
    parses. Every other outcome is a failed attempt. *)
Definition succeeds (o : FetchOutcome) (v : JSON) : Prop :=
  ∃ r, o = Resolved r ∧ ok r = true ∧ content r = Parsed v.


(** The number of entries of a collection whose status is ["active"],
    counted without building the filtered list. *)
Fixpoint count_active (ts : list Task) : nat :=
  match ts with
  | [] => 0
  | t :: rest =>
      (if String.eqb (status t) "active" then 1 else 0) + count_active rest
  end.

(** The page between handler invocations: after the first render, after a
    handler has run to completion, after the header toggle
    [setShowStory(!showStory)], or after the store changed elsewhere. *)
Inductive idle (s0 : Store) : State → Prop :=
| idle_mount : idle s0 (mount s0)
| idle_generate (σ : State) (net : Network) :
    idle s0 σ → idle s0 (final (run net (handleGenerateStory (store σ)) σ))
| idle_clear (σ : State) (net : Network) :
    idle s0 σ → idle s0 (final (run net handleClearStory σ))
| idle_toggle (σ : State) :
    idle s0 σ → idle s0 (apply_action (SetShowStory (negb (showStory σ))) σ)
| idle_store (σ : State) (f : Store → Store) :
    idle s0 σ → idle s0 (on_store f σ).

(** A failure body that follows the endpoint's interface: an object whose
    [error] property is absent or a string. *)
Definition plain_failure_body (v : JSON) : Prop :=
  ∃ fields, v = JObj fields ∧
    (JS.own_property "error" fields = None
     ∨ ∃ m, JS.own_property "error" fields = Some (JStr m)).


(** The request ends in an exception: [fetch] rejects with it, or reading
    the body of the response does. *)
Definition thrown_while_requesting (o : FetchOutcome) (e : Thrown) : Prop :=
  o = Rejected e ∨ ∃ r, o = Resolved r ∧ JS.json r = inl e.

(** The state shown while the request is in flight: the flag set, the
    previous error cleared. *)
Definition in_flight (σ : State) : State :=
  apply_action (SetError None) (apply_action (SetIsGenerating true) σ).

(** ** Sample inputs *)

Definition configured : Settings :=
  {| universe := Some "Middle-earth";
     character := Some "ranger";
     narrativeStyle := Some "epic" |}.

Definition no_character : Settings :=
  {| universe := Some "Middle-earth";
     character := Some EmptyString;
     narrativeStyle := Some "epic" |}.

Definition two_quests : list Task :=
  [ {| detail := "write report"; status := "active" |};
    {| detail := "file taxes"; status := "completed" |};
    {| detail := "water plants"; status := "active" |} ].

Definition old_story : JSON := JObj [("title", JStr "Yesterday")].

Definition sample_store : Store :=
  {| tasks := two_quests; settings := configured; aiModel := "gpt-4";
     story := Some old_story |}.

(** No active task and no universe chosen. *)
Definition blank_store : Store :=
  {| tasks := [ {| detail := "file taxes"; status := "completed" |} ];
     settings := {| universe := None; character := Some "ranger";
                    narrativeStyle := Some "epic" |};
     aiModel := "gpt-4"; story := None |}.

Definition unconfigured_store : Store :=
  {| tasks := two_quests; settings := no_character; aiModel := "gpt-4";
     story := None |}.

Definition new_story : JSON :=
  JObj [("title", JStr "T"); ("openingScene", JStr "O");
        ("transformedTasks",
          JArr [JObj [("questName", JStr "Q1"); ("narrative", JStr "N1");
                      ("completion", JStr "C1")];
                JObj [("questName", JStr "Q2"); ("narrative", JStr "N2");
                      ("completion", JStr "C2")]]);
        ("epilogue", JStr "E")].

Definition answers (r : Response) : Network := λ _, Resolved r.
Definition offline (e : Thrown) : Network := λ _, Rejected e.

Definition success_response : Response :=
  {| ok := true; content := Parsed new_story |}.

(** Status 429 whose body has the [error] field [rate limited]. *)
Definition rate_limited : Response :=
  {| ok := false; content := Parsed (JObj [("error", JStr "rate limited")]) |}.

(** A failure status whose body has an [error] field holding the empty
    string. *)
Definition empty_error_field : Response :=
  {| ok := false; content := Parsed (JObj [("error", JStr EmptyString)]) |}.


(** A failure status whose body is an HTML error page. *)
Definition html_error_page : Response :=
  {| ok := false;
     content := Malformed "Unexpected token '<', <!DOCTYPE ... is not valid JSON" |}.

(** ** Rendering *)

(** The rest of the component: the header toggle, the [storyContent] memo and
    the tree the component returns. A view keeps what the JSX computes (the
    texts, the flags, which regions exist and the values placed in them), not
    the markup, the class names or the animations. [render] is the
    evaluation of the component function: the values it places in the tree
    are kept as they are, and what React does with them afterwards is not
    part of it. The width of the progress bar is floating-point arithmetic
    and is left out. *)

Module JSX.

(** [x && a]: the falsy left operand, or the right operand. *)
Inductive Guarded (A : Type) : Type :=
| Falsy (x : option JSON)
| Shown (a : A).

Arguments Falsy {A} x.
Arguments Shown {A} a.

(** [Boolean(x)] where [x] may be [undefined] or [null]. *)
Definition truthy_opt (x : option JSON) : bool :=
  match x with
  | None => false
  | Some v => JS.truthy v
  end.

Definition and {A : Type} (x : option JSON) (a : A) : Guarded A :=
  if truthy_opt x then Shown a else Falsy x.

Definition is_shown {A : Type} (g : Guarded A) : bool :=
  match g with
  | Shown _ => true
  | Falsy _ => false
  end.

(** Sequencing of evaluations that may throw. *)
Definition and_then {A B : Type} (x : Thrown + A) (f : A → Thrown + B) : Thrown + B :=
  match x with
  | inl e => inl e
  | inr a => f a
  end.

(** The receiver of [x.map(...)]: the elements of an array; a [TypeError]
    when [x] is [undefined] or [null], or has no callable [map]. *)
Definition map_receiver (x : option JSON) : Thrown + list JSON :=
  match x with
  | None =>
      inl (ErrorObject "TypeError"
             "Cannot read properties of undefined (reading 'map')")
  | Some JNull =>
      inl (ErrorObject "TypeError"
             "Cannot read properties of null (reading 'map')")
  | Some (JArr items) => inr items
  | Some _ =>
      inl (ErrorObject "TypeError"
             "savedStory.transformedTasks.map is not a function")
  end.

(** [items.map((item, index) => f index item)], the callback called in
    order, from [index] on; the first exception ends the loop. *)
Fixpoint map_from {B : Type} (f : nat → JSON → Thrown + B)
    (index : nat) (items : list JSON) : Thrown + list B :=
  match items with
  | [] => inr []
  | item :: rest =>
      and_then (f index item) (λ b,
      and_then (map_from f (S index) rest) (λ bs, inr (b :: bs)))
  end.

End JSX.

(** [onClick={() => setShowStory(!showStory)}] of the story header; the
    closure holds the [showStory] of the render that created it. *)
Definition toggleStory (showStory : bool) : Prog unit :=
  setShowStory (negb showStory).

(** One entry of "The Journey". *)
Record QuestEntry : Type := {
  entry_key : string;
  questName : option JSON;
  narrative : option JSON;
  completion : option JSON
}.

Record StoryContent : Type := {
  openingScene : option JSON;
  journey : list QuestEntry;
  epilogue : option JSON
}.

(** The callback of [savedStory.transformedTasks.map((quest, index) => ...)]. *)
Definition quest_entry (index : nat) (quest : JSON) : Thrown + QuestEntry :=
  JSX.and_then (JS.get quest "questName") (λ name,
  JSX.and_then (JS.get quest "narrative") (λ told,
  JSX.and_then (JS.get quest "completion") (λ done_,
  inr {| entry_key := "quest-" ++ pretty index;
         questName := name;
         narrative := told;
         completion := done_ |}))).

(** The [storyContent] memo: [null] without a story, else the opening
    scene, the quest entries and the epilogue. *)
Definition storyContent (savedStory : option JSON) : Thrown + option StoryContent :=
  match savedStory with
  | None => inr None
  | Some v =>
      if negb (JS.truthy v) then inr None
      else
        JSX.and_then (JS.get v "openingScene") (λ opening,
        JSX.and_then (JS.get v "transformedTasks") (λ transformed,
        JSX.and_then (JSX.map_receiver transformed) (λ items,
        JSX.and_then (JSX.map_from quest_entry 0 items) (λ entries,
        JSX.and_then (JS.get v "epilogue") (λ closing,
        inr (Some {| openingScene := opening;
                     journey := entries;
                     epilogue := closing |}))))))
  end.

(** The story region: the title in its header, the chevron, and the content
    when expanded ([showStory && storyContent]). *)
Record StoryPanel : Type := {
  title : option JSON;
  chevron_up : bool;
  panel_content : option StoryContent
}.

Record View : Type := {
  heading : string;
  subtitle : string;
  clear_button : JSX.Guarded unit;
  generate_disabled : bool;
  generate_label : string;
  task_indicator : option string;
  oracle : bool;
  story_panel : JSX.Guarded StoryPanel;
  error_banner : option string
}.

(** The title read inside [savedStory && (...)]: [savedStory] is truthy
    there, so the access cannot throw. *)
Definition story_title (savedStory : option JSON) : option JSON :=
  match savedStory with
  | Some v => match JS.get v "title" with inr x => x | inl _ => None end
  | None => None
  end.

(** The component's render: the memo first, then the returned tree. *)
Definition render (σ : State) : Thrown + View :=
  let savedStory := story (store σ) in
  let count := length (activeTasks (tasks (store σ))) in
  JSX.and_then (storyContent savedStory) (λ content_,
  inr {|
    heading :=
      if JSX.truthy_opt savedStory then "Your Epic Tale"
      else "Ready to Generate Your Epic Tale";
    subtitle :=
      if JSX.truthy_opt savedStory
      then "Your story has been woven from your quests"
      else "Transform your " ++ pretty count ++ " quest"
           ++ (if negb (Nat.eqb count 1) then "s" else EmptyString)
           ++ " into an epic story";
    clear_button := JSX.and savedStory tt;
    generate_disabled := isGenerating σ || Nat.eqb count 0;
    generate_label :=
      if isGenerating σ then "Generating..."
      else if JSX.truthy_opt savedStory then "Regenerate Tale"
      else "Generate Epic Tale";
    task_indicator :=
      if negb (JSX.truthy_opt savedStory) && Nat.ltb 0 count
      then Some (pretty count ++ " "
                 ++ (if Nat.eqb count 1 then "quest" else "quests") ++ " ready")
      else None;
    oracle := isGenerating σ;
    story_panel :=
      JSX.and savedStory
        {| title := story_title savedStory;
           chevron_up := showStory σ;
           panel_content := if showStory σ then content_ else None |};
    error_banner :=
      match error σ with
      | Some message =>
          if negb (String.eqb message EmptyString) then Some message else None
      | None => None
      end
  |}).

(** What the user can activate in a view. *)
Inductive Control : Type :=
| GenerateButton
| ClearButton
| StoryHeader.

(** The handler a control runs, if the view has the control and it is
    enabled: a disabled button fires no click. *)
Definition on_click (σ : State) (view : View) (c : Control) : option (Prog unit) :=
  match c with
  | GenerateButton =>
      if generate_disabled view then None
      else Some (handleGenerateStory (store σ))
  | ClearButton =>
      if JSX.is_shown (clear_button view) then Some handleClearStory else None
  | StoryHeader =>
      if JSX.is_shown (story_panel view) then Some (toggleStory (showStory σ))
      else None
  end.

(** ** Vocabulary for the rendering properties *)

(** A story the memo can lay out: an object whose [transformedTasks] is an
    array without [null] entries. *)
Definition renderable (v : JSON) : Prop :=
  ∃ fields items,
    v = JObj fields
    ∧ JS.own_property "transformedTasks" fields = Some (JArr items)
    ∧ Forall (λ quest, quest ≠ JNull) items.

(** The suspensions on [response.json()] of a run. *)
Definition body_reads (tr : list Event) : list Response :=
  omap (λ ev, match ev with
              | Suspended (OnJson r) _ => Some r
              | _ => None
              end) tr.

(** The noun of the task count: singular for one. *)
Definition quest_noun (count : nat) : string :=
  if decide (count = 1) then "quest" else "quests".

(** A story already shown, used by the instances below. *)
Definition shown_story : JSON :=
  JObj [("title", JStr "Yesterday");
        ("openingScene", JStr "Dawn.");
        ("transformedTasks",
          JArr [JObj [("questName", JStr "Q0"); ("narrative", JStr "N0");
                      ("completion", JStr "C0")]]);
        ("epilogue", JStr "Dusk.")].

Definition story_store : Store :=
  {| tasks := two_quests; settings := configured; aiModel := "gpt-4";
     story := Some shown_story |}.

(** A success body without [transformedTasks]. *)
Definition title_only : Response :=
  {| ok := true; content := Parsed (JObj [("title", JStr "T")]) |}.

(** ** JavaScript conversions on samples *)

Example ToString_nested_array :
  JS.ToString (JArr [JNum false "1"; JNull; JArr [JStr "a"; JStr "b"]; JObj []])
  = inr "1,,a,b,[object Object]".
Proof. reflexivity. Qed.

Example ToString_empty_array : JS.ToString (JArr []) = inr EmptyString.
Proof. reflexivity. Qed.

Example ToString_shadowed_toString :
  JS.ToString (JObj [("toString", JStr "x")])
  = inl (ErrorObject "TypeError" "Cannot convert object to primitive value").
Proof. reflexivity. Qed.

Example or_keeps_truthy_array :
  JS.or (Some (JArr [])) (JStr "Failed to generate story") = JArr [].
Proof. reflexivity. Qed.

Example or_replaces_zero :
  JS.or (Some (JNum true "0")) (JStr "Failed to generate story")
  = JStr "Failed to generate story".
Proof. reflexivity. Qed.

Example get_on_null :
  JS.get JNull "error"
  = inl (ErrorObject "TypeError" "Cannot read properties of null (reading 'error')").
Proof. reflexivity. Qed.

(** ** Validation *)

Lemma truthy_str_false (x : option string) :
  JS.truthy_str x = false ↔ missing x.
Proof.
  unfold missing. destruct x as [s|]; simpl.
  - rewrite negb_false_iff, String.eqb_eq.
    split; [intros ->; by right | intros [|]; congruence].
  - split; [by left | done].
Qed.

Lemma settings_test_true (st : Settings) :
  negb (JS.truthy_str (universe st)) || negb (JS.truthy_str (character st))
    || negb (JS.truthy_str (narrativeStyle st)) = true
  ↔ settings_incomplete st.
Proof.
  unfold settings_incomplete.
  rewrite !orb_true_iff, !negb_true_iff, !truthy_str_false. tauto.
Qed.

Lemma settings_test_false (st : Settings) :
  ¬ settings_incomplete st →
  negb (JS.truthy_str (universe st)) || negb (JS.truthy_str (character st))
    || negb (JS.truthy_str (narrativeStyle st)) = false.
Proof.
  intros H. apply not_true_is_false. by rewrite settings_test_true.
Qed.

(** Take the handler past its two guards, given [H : ready s]. *)
Ltac validated H :=
  let Hn := fresh "Hcount" in
  let Hc := fresh "Hsettings" in
  destruct H as [Hn Hc]; unfold eligible_count in Hn;
  unfold handleGenerateStory;
  destruct (decide (length (activeTasks (tasks _)) = 0)) as [?|_]; [done|];
  rewrite (settings_test_false _ Hc).

(** Split a validated run by how the request and the body read end. *)
Ltac attempt_cases net s :=
  cbn;
  destruct (net (generate_request s)) as [?e|?r] eqn:?Hnet; cbn;
  [| match goal with
     | r : Response |- _ =>
         destruct (ok r) eqn:?Hok; cbn; unfold JS.json;
         destruct (content r) as [?v|?m|?e] eqn:?Hcontent; cbn
     end ].

(** Split a failure response with a parsed body by the shape of the body
    and, for an object, by whether building the error throws. *)
Ltac failure_body_cases v :=
  destruct v; cbn;
  try match goal with
      | |- context [JS.new_Error ?x] =>
          destruct (JS.new_Error x) as [?e|?e] eqn:?Hnew; cbn
      end.

(** The run of an invocation refused for want of active tasks. *)
Lemma run_no_active_tasks (s : Store) (net : Network) (σ : State) :
  eligible_count s = 0 →
  run net (handleGenerateStory s) σ =
    {| trace := [Performed (SetError (Some "No active tasks to generate story from"))];
       final := apply_action (SetError (Some "No active tasks to generate story from")) σ;
       exit := inr tt |}.
Proof.
  unfold eligible_count, handleGenerateStory. intros Hz.
  destruct (decide _) as [_|Hn]; [reflexivity | done].
Qed.

(** The run of an invocation refused for incomplete settings. *)
Lemma run_settings_incomplete (s : Store) (net : Network) (σ : State) :
  eligible_count s ≠ 0 →
  settings_incomplete (settings s) →
  run net (handleGenerateStory s) σ =
    {| trace := [Performed (SetError (Some "Please configure your story settings first"))];
       final := apply_action (SetError (Some "Please configure your story settings first")) σ;
       exit := inr tt |}.
Proof.
  unfold eligible_count, handleGenerateStory. intros Hn Hinc.
  destruct (decide _) as [Hz|_]; [done|].
  apply settings_test_true in Hinc. rewrite Hinc. reflexivity.
Qed.

Lemma sample_store_ready : ready sample_store.
Proof.
  split; [by vm_compute |].
  intros [H|[H|H]]; destruct H as [H|H]; vm_compute in H; congruence.
Qed.

(** ** The input gate *)

(** C1, as amended: the active-task-count check runs first. For every
    invocation in which one of the three settings fields is empty or
    missing, the error message is set to "Please configure your story
    settings first" when there is at least one active task, and to "No
    active tasks to generate story from" when there is none. *)
Theorem settings_message_after_task_check
    (s : Store) (net : Network) (σ : State) :
  settings_incomplete (settings s) →
  error (final (run net (handleGenerateStory s) σ)) =
    Some (if decide (eligible_count s = 0)
          then "No active tasks to generate story from"
          else "Please configure your story settings first").
Proof.
  intros Hinc. destruct (decide (eligible_count s = 0)) as [Hz|Hn].
  - by rewrite run_no_active_tasks.
  - by rewrite run_settings_incomplete.
Qed.

Lemma settings_message_after_task_check_witness :
  settings_incomplete (settings unconfigured_store)
  ∧ error (final (run (answers success_response)
                    (handleGenerateStory unconfigured_store)
                    (mount unconfigured_store)))
    = Some "Please configure your story settings first".
Proof.
  assert (Hinc : settings_incomplete (settings unconfigured_store)).
  { right; left; right; reflexivity. }
  split; [exact Hinc |].
  exact (settings_message_after_task_check unconfigured_store
           (answers success_response) (mount unconfigured_store) Hinc).
Defined.

(** C1, as stated, fails: with no active task and no universe chosen the
    message is the one of the task check, not the one of the settings
    check. *)
Lemma settings_check_first_counterexample :
  settings_incomplete (settings blank_store)
  ∧ eligible_count blank_store = 0
  ∧ error (final (run (answers success_response)
                    (handleGenerateStory blank_store) (mount blank_store)))
    = Some "No active tasks to generate story from"
  ∧ error (final (run (answers success_response)
                    (handleGenerateStory blank_store) (mount blank_store)))
    ≠ Some "Please configure your story settings first".
Proof.
  split; [left; left; reflexivity |].
  split; [reflexivity |].
  split; [reflexivity | vm_compute; congruence].
Qed.

(** C5: an invocation refused by validation (no eligible task, or a
    settings field missing) issues no request, and all it does is set the
    error message: the loading flag is never set, and the persisted story,
    the rest of the store and the display-expanded flag are unchanged. *)
Theorem refused_only_sets_error (s : Store) (net : Network) (σ : State) :
  eligible_count s = 0 ∨ settings_incomplete (settings s) →
  let r := run net (handleGenerateStory s) σ in
  requests (trace r) = []
  ∧ (∃ message, trace r = [Performed (SetError (Some message))]
                ∧ error (final r) = Some message)
  ∧ filter is_setIsGenerating (actions (trace r)) = []
  ∧ isGenerating (final r) = isGenerating σ
  ∧ store (final r) = store σ
  ∧ showStory (final r) = showStory σ
  ∧ exit r = inr tt.
Proof.
  intros Hrefused r.
  assert (Hrun : ∃ message,
    r = {| trace := [Performed (SetError (Some message))];
           final := apply_action (SetError (Some message)) σ;
           exit := inr tt |}).
  { subst r. destruct (decide (eligible_count s = 0)) as [Hz|Hn].
    - eexists. by apply run_no_active_tasks.
    - destruct Hrefused as [Hz|Hinc]; [done|].
      eexists. by apply run_settings_incomplete. }
  destruct Hrun as [message ->]. cbn.
  repeat split; eauto.
Qed.

Lemma refused_only_sets_error_witness :
  let r := run (answers success_response)
             (handleGenerateStory blank_store) (mount blank_store) in
  requests (trace r) = [] ∧ isGenerating (final r) = false
  ∧ story (store (final r)) = None.
Proof.
  pose proof (refused_only_sets_error blank_store (answers success_response)
                (mount blank_store) (or_introl eq_refl)) as H.
  cbv zeta in H. destruct H as (Hreq & _ & _ & Hflag & Hstore & _).
  cbv zeta. split; [exact Hreq |]. split; [exact Hflag |].
  rewrite Hstore. reflexivity.
Defined.

Lemma ready_or_refused (s : Store) :
  ready s ∨ eligible_count s = 0 ∨ settings_incomplete (settings s).
Proof.
  destruct (decide (eligible_count s = 0)) as [Hz|Hn]; [by right; left |].
  destruct (negb (JS.truthy_str (universe (settings s)))
            || negb (JS.truthy_str (character (settings s)))
            || negb (JS.truthy_str (narrativeStyle (settings s)))) eqn:Htest.
  - right; right. by apply settings_test_true.
  - left. split; [done |]. intros Hinc%settings_test_true. congruence.
Qed.

(** ** The request *)

Lemma activeTasks_count (ts : list Task) :
  length (activeTasks ts) = count_active ts.
Proof.
  unfold activeTasks. induction ts as [|t rest IH]; [reflexivity |].
  rewrite filter_cons. simpl count_active.
  destruct (String.eqb_spec (status t) "active") as [Heq|Hne].
  - rewrite decide_True by done. simpl. by rewrite IH.
  - rewrite decide_False by done. by rewrite IH.
Qed.

(** A validated invocation issues one request, whatever the network does. *)
Lemma requests_ready (s : Store) (net : Network) (σ : State) :
  ready s →
  requests (trace (run net (handleGenerateStory s) σ)) = [generate_request s].
Proof.
  intros H. validated H. attempt_cases net s; try reflexivity.
  failure_body_cases v; reflexivity.
Qed.

Lemma requests_refused (s : Store) (net : Network) (σ : State) :
  eligible_count s = 0 ∨ settings_incomplete (settings s) →
  requests (trace (run net (handleGenerateStory s) σ)) = [].
Proof.
  intros Hrefused. destruct (decide (eligible_count s = 0)) as [Hz|Hn].
  - by rewrite run_no_active_tasks.
  - destruct Hrefused as [Hz|Hinc]; [done |].
    by rewrite run_settings_incomplete.
Qed.

(** C7: the eligible count is the number of entries whose status is
    "active", the filtered list holds exactly those entries in the order of
    the collection, and the request issued by [handleGenerateStory] carries
    this filtered list as its tasks, with the settings object and the
    selected model identifier. *)
Theorem request_carries_active_tasks
    (s : Store) (net : Network) (σ : State) :
  eligible_count s = count_active (tasks s)
  ∧ (∀ t, t ∈ activeTasks (tasks s) ↔ t ∈ tasks s ∧ status t = "active")
  ∧ activeTasks (tasks s) `sublist_of` tasks s
  ∧ (∀ req, req ∈ requests (trace (run net (handleGenerateStory s) σ)) →
       url req = "/api/generate" ∧ method req = "POST"
       ∧ body req = {| payload_tasks := activeTasks (tasks s);
                       payload_settings := settings s;
                       payload_model := aiModel s |})
  ∧ (ready s →
       ∃ req, requests (trace (run net (handleGenerateStory s) σ)) = [req]).
Proof.
  split; [apply activeTasks_count |].
  split.
  { intros t. unfold activeTasks. rewrite list_elem_of_filter. tauto. }
  split; [apply sublist_filter |].
  split.
  - intros req Hreq.
    destruct (ready_or_refused s) as [Hready|Hrefused].
    + rewrite (requests_ready _ _ _ Hready) in Hreq.
      apply list_elem_of_singleton in Hreq as ->. by repeat split.
    + rewrite (requests_refused _ _ _ Hrefused) in Hreq.
      by apply not_elem_of_nil in Hreq.
  - intros Hready. eexists. by apply requests_ready.
Qed.

Lemma request_carries_active_tasks_witness :
  ready sample_store
  ∧ ∃ req,
      requests (trace (run (answers success_response)
                         (handleGenerateStory sample_store)
                         (mount sample_store))) = [req].
Proof.
  split; [exact sample_store_ready |].
  exact (proj2 (proj2 (proj2 (proj2
           (request_carries_active_tasks sample_store
              (answers success_response) (mount sample_store)))))
           sample_store_ready).
Defined.

(** ** Clearing *)

(** C8: [handleClearStory] deletes the persisted story through the store's
    [clearStory] and sets the display-expanded flag to false, and nothing
    else: the error message, the loading flag and the rest of the store are
    as before, and no request is issued. *)
Theorem clear_story_frame (net : Network) (σ : State) :
  let r := run net handleClearStory σ in
  trace r = [Performed ClearStory; Performed (SetShowStory false)]
  ∧ story (store (final r)) = None
  ∧ showStory (final r) = false
  ∧ error (final r) = error σ
  ∧ isGenerating (final r) = isGenerating σ
  ∧ tasks (store (final r)) = tasks (store σ)
  ∧ settings (store (final r)) = settings (store σ)
  ∧ aiModel (store (final r)) = aiModel (store σ)
  ∧ exit r = inr tt.
Proof. cbn. by repeat split. Qed.

(** ** Conversions that throw *)




(** ** The generation attempt *)

Section Attempt.

Variable s : Store.
Variable net : Network.
Variable σ : State.
Hypothesis Hready : ready s.

Local Abbreviation outcome := (net (generate_request s)).
Local Abbreviation result := (run net (handleGenerateStory s) σ).

(** C4: when the response indicates success (and its body parses), the
    persisted story is set to exactly the parsed body, handed unchanged to
    the store's [setStory], and the display-expanded flag becomes true. *)
Theorem success_stores_parsed_body (v : JSON) :
  succeeds outcome v →
  story (store (final result)) = Some v
  ∧ showStory (final result) = true
  ∧ filter is_setStory (actions (trace result)) = [SetStory v].
Proof using Hready.
  intros (r & Hnet & Hok & Hcontent).
  pose proof Hready as H. validated H.
  cbn. rewrite Hnet. cbn. rewrite Hok. cbn.
  unfold JS.json. rewrite Hcontent. cbn. done.
Qed.

(** C3: a validated invocation sets the loading flag before it issues the
    request and clears it as its last step on every exit path. The flag is
    written twice, true then false; it is true in every state shown while
    the handler is suspended, false when the handler has finished, and the
    handler finishes without an exception escaping. *)
Theorem loading_flag_brackets_request :
  take 3 (trace result) =
    [Performed (SetIsGenerating true); Performed (SetError None);
     Suspended (OnFetch (generate_request s)) (in_flight σ)]
  ∧ last (trace result) = Some (Performed (SetIsGenerating false))
  ∧ filter is_setIsGenerating (actions (trace result)) =
      [SetIsGenerating true; SetIsGenerating false]
  ∧ Forall (λ shown, isGenerating shown = true) (shown_states (trace result))
  ∧ isGenerating (final result) = false
  ∧ exit result = inr tt.
Proof using Hready.
  pose proof Hready as H. validated H.
  attempt_cases net s;
    try (repeat split; try reflexivity; by repeat constructor).
  failure_body_cases v; repeat split; try reflexivity; by repeat constructor.
Qed.

(** C9: a failure response whose body has an [error] field holding the
    empty string stores the generic fallback: the embedded message counts
    as present by its truthiness, not by the existence of the key. *)
Theorem empty_error_field_falls_back (r : Response) (fields : list (string * JSON)) :
  outcome = Resolved r →
  ok r = false →
  content r = Parsed (JObj fields) →
  JS.own_property "error" fields = Some (JStr EmptyString) →
  error (final result) = Some "Failed to generate story".
Proof using Hready.
  intros Hnet Hok Hcontent Hfield.
  pose proof Hready as H. validated H.
  cbn. rewrite Hnet. cbn. rewrite Hok. cbn.
  unfold JS.json. rewrite Hcontent. cbn. rewrite Hfield. reflexivity.
Qed.

(** C10: when a failure response's body is not valid JSON, reading it
    throws before the error with the embedded message or the fallback is
    built: the exception caught is the parse error, its message becomes the
    error message, the persisted story is unchanged and the loading flag is
    cleared. *)
Theorem malformed_failure_body (r : Response) (message : string) :
  outcome = Resolved r →
  ok r = false →
  content r = Malformed message →
  trace result =
    [Performed (SetIsGenerating true); Performed (SetError None);
     Suspended (OnFetch (generate_request s)) (in_flight σ);
     Suspended (OnJson r) (in_flight σ);
     Performed (ConsoleError "Story generation error:"
                  (ErrorObject "SyntaxError" message));
     Performed (SetError (Some message));
     Performed (SetIsGenerating false)]
  ∧ error (final result) = Some message
  ∧ story (store (final result)) = story (store σ)
  ∧ isGenerating (final result) = false.
Proof using Hready.
  intros Hnet Hok Hcontent.
  pose proof Hready as H. validated H.
  cbn. rewrite Hnet. cbn. rewrite Hok. cbn.
  unfold JS.json. rewrite Hcontent. cbn. done.
Qed.


(** C6, as amended: after a failed attempt the stored error message is the
    [error] string of the failure response's body when that string is
    present and non-empty, the generic fallback "Failed to generate story"
    when the body is an object whose [error] field is absent or the empty
    string, and, when the request or the body read threw, the message of the
    exception if it is an [Error] and the generic fallback otherwise. *)
Theorem failure_message_derivation :
  (∀ r fields message,
     outcome = Resolved r → ok r = false →
     content r = Parsed (JObj fields) →
     JS.own_property "error" fields = Some (JStr message) →
     error (final result) =
       Some (if decide (message = EmptyString)
             then "Failed to generate story" else message))
  ∧ (∀ r fields,
       outcome = Resolved r → ok r = false →
       content r = Parsed (JObj fields) →
       JS.own_property "error" fields = None →
       error (final result) = Some "Failed to generate story")
  ∧ (∀ name message,
       thrown_while_requesting outcome (ErrorObject name message) →
       error (final result) = Some message)
  ∧ (∀ stringified,
       thrown_while_requesting outcome (NotAnError stringified) →
       error (final result) = Some "Failed to generate story").
Proof using Hready.
  pose proof Hready as H. validated H.
  repeat split.
  - intros r fields message Hnet Hok Hcontent Hfield.
    cbn. rewrite Hnet. cbn. rewrite Hok. cbn.
    unfold JS.json. rewrite Hcontent. cbn. rewrite Hfield. cbn.
    destruct (String.eqb_spec message EmptyString) as [->|Hne]; cbn.
    + reflexivity.
    + by rewrite decide_False.
  - intros r fields Hnet Hok Hcontent Hfield.
    cbn. rewrite Hnet. cbn. rewrite Hok. cbn.
    unfold JS.json. rewrite Hcontent. cbn. rewrite Hfield. reflexivity.
  - intros name message [Hnet | (r & Hnet & Hjson)];
      cbn; rewrite Hnet; cbn; [reflexivity |].
    destruct (ok r); cbn; rewrite Hjson; reflexivity.
  - intros stringified [Hnet | (r & Hnet & Hjson)];
      cbn; rewrite Hnet; cbn; [reflexivity |].
    destruct (ok r); cbn; rewrite Hjson; reflexivity.
Qed.

End Attempt.

(** ** Instances *)


Lemma success_stores_parsed_body_witness :
  succeeds (answers success_response (generate_request sample_store)) new_story
  ∧ story (store (final (run (answers success_response)
                           (handleGenerateStory sample_store)
                           (mount sample_store)))) = Some new_story.
Proof.
  assert (Hs : succeeds (answers success_response
                           (generate_request sample_store)) new_story).
  { exists success_response. repeat split; reflexivity. }
  split; [exact Hs |].
  exact (proj1 (success_stores_parsed_body sample_store
                  (answers success_response) (mount sample_store)
                  sample_store_ready new_story Hs)).
Defined.

Lemma loading_flag_brackets_request_witness :
  ready sample_store
  ∧ isGenerating (final (run (offline (ErrorObject "TypeError" "Failed to fetch"))
                           (handleGenerateStory sample_store)
                           (mount sample_store))) = false.
Proof.
  split; [exact sample_store_ready |].
  exact (proj1 (proj2 (proj2 (proj2 (proj2
           (loading_flag_brackets_request sample_store
              (offline (ErrorObject "TypeError" "Failed to fetch"))
              (mount sample_store) sample_store_ready)))))).
Defined.

Lemma empty_error_field_falls_back_witness :
  JS.own_property "error" [("error", JStr EmptyString)] = Some (JStr EmptyString)
  ∧ error (final (run (answers empty_error_field)
                    (handleGenerateStory sample_store)
                    (mount sample_store))) = Some "Failed to generate story".
Proof.
  split; [reflexivity |].
  exact (empty_error_field_falls_back sample_store (answers empty_error_field)
           (mount sample_store) sample_store_ready
           empty_error_field [("error", JStr EmptyString)]
           eq_refl eq_refl eq_refl eq_refl).
Defined.

Lemma malformed_failure_body_witness :
  content html_error_page =
    Malformed "Unexpected token '<', <!DOCTYPE ... is not valid JSON"
  ∧ error (final (run (answers html_error_page)
                    (handleGenerateStory sample_store)
                    (mount sample_store)))
    = Some "Unexpected token '<', <!DOCTYPE ... is not valid JSON".
Proof.
  split; [reflexivity |].
  exact (proj1 (proj2
           (malformed_failure_body sample_store (answers html_error_page)
              (mount sample_store) sample_store_ready html_error_page _
              eq_refl eq_refl eq_refl))).
Defined.


Lemma failure_message_derivation_witness :
  ready sample_store
  ∧ error (final (run (answers rate_limited)
                    (handleGenerateStory sample_store)
                    (mount sample_store))) = Some "rate limited".
Proof.
  split; [exact sample_store_ready |].
  exact (proj1 (failure_message_derivation sample_store (answers rate_limited)
                  (mount sample_store) sample_store_ready)
           rate_limited [("error", JStr "rate limited")] "rate limited"
           eq_refl eq_refl eq_refl eq_refl).
Defined.


(** C6, as stated, fails: when the network call throws a value that is not
    an [Error], the message stored is the generic fallback, not the
    stringified exception. *)
Lemma stringified_exception_counterexample :
  ready sample_store
  ∧ thrown_while_requesting
      (offline (NotAnError "boom") (generate_request sample_store))
      (NotAnError "boom")
  ∧ error (final (run (offline (NotAnError "boom"))
                    (handleGenerateStory sample_store)
                    (mount sample_store))) = Some "Failed to generate story"
  ∧ error (final (run (offline (NotAnError "boom"))
                    (handleGenerateStory sample_store)
                    (mount sample_store))) ≠ Some "boom".
Proof.
  split; [exact sample_store_ready |].
  split; [by left |].
  split; [reflexivity | vm_compute; congruence].
Qed.

(** ** Between invocations *)

Lemma generate_leaves_flag_cleared (s : Store) (net : Network) (σ : State) :
  isGenerating σ = false →
  isGenerating (final (run net (handleGenerateStory s) σ)) = false.
Proof.
  intros Hidle. destruct (ready_or_refused s) as [H|[Hz|Hinc]].
  - validated H. attempt_cases net s; try reflexivity.
    failure_body_cases v; reflexivity.
  - by rewrite run_no_active_tasks.
  - destruct (decide (eligible_count s = 0)) as [Hz|Hn].
    + by rewrite run_no_active_tasks.
    + by rewrite run_settings_incomplete.
Qed.

(** X4: whenever no invocation is in progress (after the first render,
    and after any sequence of completed generate, clear and toggle handlers
    and store changes) the loading flag is false. *)
Lemma idle_not_generating (s0 : Store) (σ : State) :
  idle s0 σ → isGenerating σ = false.
Proof.
  induction 1 as [|σ net _ IH|σ net _ IH|σ _ IH|σ f _ IH]; try done.
  by apply generate_leaves_flag_cleared.
Qed.

(** ** The scenarios of the specification *)

Example scenario_two_tasks_success :
  let r := run (answers success_response) (handleGenerateStory sample_store)
             (mount sample_store) in
  map (λ req, length (payload_tasks (body req))) (requests (trace r)) = [2]
  ∧ story (store (final r)) = Some new_story
  ∧ showStory (final r) = true
  ∧ error (final r) = None.
Proof. by vm_compute. Qed.

Example scenario_no_tasks :
  let r := run (answers success_response) (handleGenerateStory blank_store)
             (mount blank_store) in
  error (final r) = Some "No active tasks to generate story from"
  ∧ story (store (final r)) = None.
Proof. by vm_compute. Qed.

Example scenario_missing_character :
  error (final (run (answers success_response)
                  (handleGenerateStory unconfigured_store)
                  (mount unconfigured_store)))
  = Some "Please configure your story settings first".
Proof. by vm_compute. Qed.

Example scenario_rate_limited :
  let r := run (answers rate_limited) (handleGenerateStory sample_store)
             (mount sample_store) in
  error (final r) = Some "rate limited"
  ∧ isGenerating (final r) = false
  ∧ story (store (final r)) = Some old_story.
Proof. by vm_compute. Qed.

(** ** The story memo *)

Lemma get_not_null (quest : JSON) (key : string) :
  quest ≠ JNull → ∃ x, JS.get quest key = inr x.
Proof. destruct quest; intros H; by eauto. Qed.

Lemma get_truthy (v : JSON) (key : string) :
  JS.truthy v = true → ∃ x, JS.get v key = inr x.
Proof. intros H. apply get_not_null. by intros ->. Qed.

Lemma quest_entry_ok (index : nat) (quest : JSON) :
  quest ≠ JNull →
  ∃ entry, quest_entry index quest = inr entry
    ∧ entry_key entry = "quest-" ++ pretty index
    ∧ JS.get quest "questName" = inr (questName entry)
    ∧ JS.get quest "narrative" = inr (narrative entry)
    ∧ JS.get quest "completion" = inr (completion entry).
Proof. destruct quest; intros H; try done; eexists; by repeat split. Qed.

Lemma quest_entry_null (index : nat) :
  ∃ message, quest_entry index JNull = inl (ErrorObject "TypeError" message).
Proof. by eexists. Qed.

(** The callback runs once per element, in order, when no element is
    [null]. *)
Lemma map_from_entries (items : list JSON) (start : nat) :
  Forall (λ quest, quest ≠ JNull) items →
  ∃ entries,
    JSX.map_from quest_entry start items = inr entries
    ∧ length entries = length items
    ∧ ∀ k quest, items !! k = Some quest →
        ∃ entry, entries !! k = Some entry
          ∧ entry_key entry = "quest-" ++ pretty (start + k)
          ∧ JS.get quest "questName" = inr (questName entry)
          ∧ JS.get quest "narrative" = inr (narrative entry)
          ∧ JS.get quest "completion" = inr (completion entry).
Proof.
  intros Hitems. revert start.
  induction Hitems as [|quest rest Hquest _ IH]; intros start.
  - exists []. split; [done |]. split; [done |].
    intros k quest Hk. by destruct k.
  - destruct (quest_entry_ok start quest Hquest) as (entry & Hentry & Hprops).
    destruct (IH (S start)) as (entries & Hrest & Hlen & Hlookup).
    exists (entry :: entries). cbn. rewrite Hentry. cbn. rewrite Hrest. cbn.
    split; [done |]. split; [by rewrite Hlen |].
    intros [|k] q Hk; cbn in Hk.
    + injection Hk as <-. exists entry. by rewrite Nat.add_0_r.
    + destruct (Hlookup k q Hk) as (e & He & Hkey & Hrest').
      exists e. split; [done |]. split; [| done].
      rewrite Hkey. by rewrite Nat.add_succ_r.
Qed.

(** A [null] element makes the callback throw. *)
Lemma map_from_throws (items : list JSON) (start : nat) :
  ¬ Forall (λ quest, quest ≠ JNull) items →
  ∃ message,
    JSX.map_from quest_entry start items = inl (ErrorObject "TypeError" message).
Proof.
  revert start. induction items as [|quest rest IH]; intros start Hnot.
  - destruct Hnot. constructor.
  - assert (Hcase : quest = JNull ∨ quest ≠ JNull)
      by (destruct quest; auto; right; discriminate).
    destruct Hcase as [->|Hquest].
    + by eexists.
    + destruct (quest_entry_ok start quest Hquest) as (entry & Hentry & _).
      destruct (IH (S start)) as (message & Hrest).
      { intros Hrest. apply Hnot. by constructor. }
      exists message. cbn. rewrite Hentry. cbn. by rewrite Hrest.
Qed.

Lemma no_null_or_some (items : list JSON) :
  Forall (λ quest, quest ≠ JNull) items
  ∨ ¬ Forall (λ quest, quest ≠ JNull) items.
Proof.
  induction items as [|quest rest [IH|IH]].
  - left. constructor.
  - destruct quest; try (left; by constructor).
    right. intros Hall. by inversion Hall.
  - right. intros Hall. inversion Hall. done.
Qed.

(** A truthy story is laid out when it is renderable and makes the memo
    throw a [TypeError] otherwise. *)
Lemma storyContent_cases (v : JSON) :
  JS.truthy v = true →
  (renderable v ∧ ∃ laid, storyContent (Some v) = inr (Some laid))
  ∨ (¬ renderable v
     ∧ ∃ message, storyContent (Some v) = inl (ErrorObject "TypeError" message)).
Proof.
  intros Htruthy. unfold storyContent. rewrite Htruthy. cbn [negb].
  destruct v as [|b|zero text|str|elements|fields]; try discriminate Htruthy;
    try (right; split; [by intros (? & ? & [=] & _) | by eexists]).
  cbn.
  destruct (JS.own_property "transformedTasks" fields)
    as [[| | | |items|]|] eqn:Hprop; cbn;
    try (right; split;
         [intros (fs & its & [= <-] & Hp & _); congruence | by eexists]).
  destruct (no_null_or_some items) as [Hall|Hsome].
  - left. split; [by exists fields, items |].
    destruct (map_from_entries items 0 Hall) as (entries & -> & _).
    cbn. by eexists.
  - right. split.
    + intros (fs & its & [= <-] & Hp & Hall). rewrite Hprop in Hp.
      injection Hp as <-. done.
    + destruct (map_from_throws items 0 Hsome) as (message & ->).
      cbn. by eexists.
Qed.

(** X6: the component function throws exactly when the persisted story is
    truthy and not renderable (not an object whose [transformedTasks] is an
    array without [null] entries); what it throws then is a [TypeError].
    Without a story, or with a falsy one, it always returns its tree. *)
Theorem render_succeeds_iff (σ : State) :
  ((∃ view, render σ = inr view)
   ↔ (∀ v, story (store σ) = Some v → JS.truthy v = true → renderable v))
  ∧ (∀ e, render σ = inl e → ∃ message, e = ErrorObject "TypeError" message).
Proof.
  unfold render. cbv zeta.
  destruct (story (store σ)) as [v|] eqn:Hstory.
  - destruct (JS.truthy v) eqn:Htruthy.
    + destruct (storyContent_cases v Htruthy)
        as [(Hok & laid & Hlaid) | (Hbad & message & Hthrows)].
      * rewrite Hlaid. cbn. split; [| intros e [=]].
        split; [by intros _ w [= <-] _ | by eexists].
      * rewrite Hthrows. cbn. split; [| intros e [= <-]; by eexists].
        split; [by intros [view [=]] |].
        intros Hall. destruct Hbad. by apply Hall.
    + unfold storyContent. rewrite Htruthy. cbn. split; [| intros e [=]].
      split; [| by eexists]. intros _ w [= <-] Hw. congruence.
  - cbn. split; [| intros e [=]]. split; [done | by eexists].
Qed.

(** X7: a renderable story is laid out with one entry per element of
    [transformedTasks], in the order of the array: entry [k] carries the
    key [quest-k] and the three texts of element [k]; the keys are pairwise
    distinct. *)
Theorem journey_follows_transformedTasks
    (fields : list (string * JSON)) (items : list JSON) :
  JS.own_property "transformedTasks" fields = Some (JArr items) →
  Forall (λ quest, quest ≠ JNull) items →
  ∃ laid,
    storyContent (Some (JObj fields)) = inr (Some laid)
    ∧ length (journey laid) = length items
    ∧ NoDup (entry_key <$> journey laid)
    ∧ ∀ k quest, items !! k = Some quest →
        ∃ entry, journey laid !! k = Some entry
          ∧ entry_key entry = "quest-" ++ pretty k
          ∧ JS.get quest "questName" = inr (questName entry)
          ∧ JS.get quest "narrative" = inr (narrative entry)
          ∧ JS.get quest "completion" = inr (completion entry).
Proof.
  intros Hprop Hall.
  destruct (map_from_entries items 0 Hall) as (entries & Hmap & Hlen & Hlookup).
  eexists. split.
  { cbn. rewrite Hprop. cbn. rewrite Hmap. cbn. reflexivity. }
  cbn. split; [done |]. split; [| done].
  apply NoDup_alt. intros i j key Hi Hj.
  rewrite list_lookup_fmap in Hi, Hj.
  destruct (entries !! i) as [ei|] eqn:Hei; [| done].
  destruct (entries !! j) as [ej|] eqn:Hej; [| done].
  cbn in Hi, Hj. injection Hi as Hi. injection Hj as Hj.
  destruct (items !! i) as [qi|] eqn:Hqi.
  2:{ apply lookup_ge_None in Hqi. apply lookup_lt_Some in Hei. lia. }
  destruct (items !! j) as [qj|] eqn:Hqj.
  2:{ apply lookup_ge_None in Hqj. apply lookup_lt_Some in Hej. lia. }
  destruct (Hlookup i qi Hqi) as (ei' & Hei' & Hkeyi & _).
  destruct (Hlookup j qj Hqj) as (ej' & Hej' & Hkeyj & _).
  rewrite Hei in Hei'. injection Hei' as <-.
  rewrite Hej in Hej'. injection Hej' as <-.
  cbn in Hkeyi, Hkeyj.
  assert (Hsame : "quest-" ++ pretty i = "quest-" ++ pretty j) by congruence.
  apply (inj (String.app "quest-")) in Hsame.
  by apply (inj pretty) in Hsame.
Qed.

(** ** More on the handlers *)

(** X5: the header toggle changes the display-expanded flag only. Two
    toggles, each created by the render that follows the previous one,
    restore the state; two toggles created by the same render act as one,
    because the closure negates the flag it captured. *)
Theorem toggle_closure (net : Network) (σ : State) :
  let once := final (run net (toggleStory (showStory σ)) σ) in
  showStory once = negb (showStory σ)
  ∧ store once = store σ
  ∧ error once = error σ
  ∧ isGenerating once = isGenerating σ
  ∧ final (run net (toggleStory (showStory once)) once) = σ
  ∧ final (run net (toggleStory (showStory σ)) once) = once.
Proof.
  destruct σ as [st generating err expanded]. cbn.
  rewrite negb_involutive. by repeat split.
Qed.

(** X1: [handleGenerateStory] never lets an exception escape: whatever the
    store, the state and the network, the invocation returns normally,
    having issued at most one request and read at most one response
    body. *)
Theorem generate_never_rejects (s : Store) (net : Network) (σ : State) :
  let r := run net (handleGenerateStory s) σ in
  exit r = inr tt
  ∧ (length (requests (trace r)) ≤ 1)%nat
  ∧ (length (body_reads (trace r)) ≤ 1)%nat.
Proof.
  cbv zeta. destruct (ready_or_refused s) as [H|[Hz|Hinc]].
  - validated H. attempt_cases net s; try (cbn; repeat split; lia).
    failure_body_cases v; cbn; repeat split; lia.
  - rewrite run_no_active_tasks by done. cbn. repeat split; lia.
  - destruct (decide (eligible_count s = 0)) as [Hz|Hn].
    + rewrite run_no_active_tasks by done. cbn. repeat split; lia.
    + rewrite run_settings_incomplete by done. cbn. repeat split; lia.
Qed.

(** X2: invoking [handleGenerateStory] again against the same network
    answer changes nothing more: the state after the second invocation is
    the state after the first. *)
Theorem generate_twice_same_state (s : Store) (net : Network) (σ : State) :
  final (run net (handleGenerateStory s)
           (final (run net (handleGenerateStory s) σ)))
  = final (run net (handleGenerateStory s) σ).
Proof.
  destruct (ready_or_refused s) as [H|[Hz|Hinc]].
  - validated H. attempt_cases net s; try reflexivity.
    failure_body_cases v; reflexivity.
  - by rewrite !run_no_active_tasks.
  - destruct (decide (eligible_count s = 0)) as [Hz|Hn].
    + by rewrite !run_no_active_tasks.
    + by rewrite !run_settings_incomplete.
Qed.

(** X3: a successful attempt leaves no error behind, whatever error was
    stored before it, and touches nothing of the store but the story: the
    tasks, the settings and the model selector are as before. *)
Theorem success_clears_error
    (s : Store) (net : Network) (σ : State) (v : JSON) :
  ready s →
  succeeds (net (generate_request s)) v →
  let r := run net (handleGenerateStory s) σ in
  error (final r) = None
  ∧ tasks (store (final r)) = tasks (store σ)
  ∧ settings (store (final r)) = settings (store σ)
  ∧ aiModel (store (final r)) = aiModel (store σ).
Proof.
  intros H (r & Hnet & Hok & Hcontent). validated H.
  cbn. rewrite Hnet. cbn. rewrite Hok. cbn.
  unfold JS.json. rewrite Hcontent. cbn. done.
Qed.

Lemma success_clears_error_witness :
  succeeds (answers success_response (generate_request sample_store)) new_story
  ∧ error (final (run (answers success_response)
                    (handleGenerateStory sample_store)
                    (final (run (answers rate_limited)
                              (handleGenerateStory sample_store)
                              (mount sample_store))))) = None.
Proof.
  assert (Hs : succeeds (answers success_response
                           (generate_request sample_store)) new_story).
  { exists success_response. repeat split; reflexivity. }
  split; [exact Hs |].
  exact (proj1 (success_clears_error sample_store (answers success_response)
                  (final (run (answers rate_limited)
                            (handleGenerateStory sample_store)
                            (mount sample_store)))
                  new_story sample_store_ready Hs)).
Defined.

Lemma idle_not_generating_witness :
  idle sample_store
    (final (run (answers rate_limited)
              (handleGenerateStory (store (mount sample_store)))
              (mount sample_store)))
  ∧ isGenerating
      (final (run (answers rate_limited)
                (handleGenerateStory (store (mount sample_store)))
                (mount sample_store))) = false.
Proof.
  assert (Hidle : idle sample_store
            (final (run (answers rate_limited)
                      (handleGenerateStory (store (mount sample_store)))
                      (mount sample_store)))).
  { apply idle_generate. apply idle_mount. }
  split; [exact Hidle |].
  exact (idle_not_generating sample_store _ Hidle).
Defined.

(** ** Handlers and rendering together *)

(** While a validated invocation is suspended the page shows one state:
    the flag set and the previous error cleared. *)
Lemma shown_in_flight (s : Store) (net : Network) (σ : State) :
  ready s →
  shown_states (trace (run net (handleGenerateStory s) σ)) ≠ []
  ∧ Forall (λ shown, shown = in_flight σ)
      (shown_states (trace (run net (handleGenerateStory s) σ))).
Proof.
  intros H. validated H.
  attempt_cases net s; try (split; [done | by repeat constructor]).
  failure_body_cases v; (split; [done | by repeat constructor]).
Qed.

(** X10: in every state shown while a validated invocation is suspended, the
    generate button is disabled and fires no click, its label is
    "Generating...", the oracle animation is shown and no error banner is
    shown, whatever error was displayed before. *)
Theorem in_flight_view (s : Store) (net : Network) (σ : State) :
  ready s →
  shown_states (trace (run net (handleGenerateStory s) σ)) ≠ []
  ∧ ∀ shown view,
      shown ∈ shown_states (trace (run net (handleGenerateStory s) σ)) →
      render shown = inr view →
      generate_disabled view = true
      ∧ on_click shown view GenerateButton = None
      ∧ generate_label view = "Generating..."
      ∧ oracle view = true
      ∧ error_banner view = None.
Proof.
  intros H. destruct (shown_in_flight s net σ H) as [Hsome Hall].
  split; [exact Hsome |]. intros shown view Hshown Hrender.
  rewrite Forall_forall in Hall. rewrite (Hall shown Hshown) in *.
  unfold render in Hrender. cbv zeta in Hrender.
  destruct (storyContent (story (store (in_flight σ)))) as [e|laid];
    [discriminate Hrender |].
  cbn in Hrender. injection Hrender as <-. cbn. done.
Qed.

Lemma in_flight_view_witness :
  ready story_store
  ∧ ∀ shown view,
      shown ∈ shown_states
                (trace (run (answers rate_limited)
                          (handleGenerateStory story_store)
                          (mount story_store))) →
      render shown = inr view →
      generate_disabled view = true
      ∧ on_click shown view GenerateButton = None
      ∧ generate_label view = "Generating..."
      ∧ oracle view = true
      ∧ error_banner view = None.
Proof.
  assert (Hready : ready story_store).
  { split; [by vm_compute |].
    intros [H|[H|H]]; destruct H as [H|H]; vm_compute in H; congruence. }
  split; [exact Hready |].
  exact (proj2 (in_flight_view story_store (answers rate_limited)
                  (mount story_store) Hready)).
Defined.

(** X11: when the generate button of a view can be clicked, no request is in
    progress and there is an active task, so the handler's first guard
    cannot refuse: the click either issues the request or asks for the
    settings. *)
Theorem enabled_generate_click (σ : State) (view : View) (p : Prog unit) :
  render σ = inr view →
  on_click σ view GenerateButton = Some p →
  p = handleGenerateStory (store σ)
  ∧ isGenerating σ = false
  ∧ eligible_count (store σ) ≠ 0
  ∧ ∀ net,
      requests (trace (run net p σ)) = [generate_request (store σ)]
      ∨ trace (run net p σ) =
          [Performed (SetError (Some "Please configure your story settings first"))].
Proof.
  intros Hrender Hclick. unfold render in Hrender. cbv zeta in Hrender.
  destruct (storyContent (story (store σ))) as [e|laid];
    [discriminate Hrender |].
  cbn in Hrender. injection Hrender as <-. cbn in Hclick.
  destruct (isGenerating σ) eqn:Hflag; [discriminate Hclick |].
  cbn in Hclick.
  destruct (Nat.eqb_spec (length (activeTasks (tasks (store σ)))) 0)
    as [Hz|Hn]; [discriminate Hclick |].
  injection Hclick as <-.
  split; [done |]. split; [done |]. split; [exact Hn |].
  intros net. destruct (ready_or_refused (store σ)) as [H|[Hz|Hinc]].
  - left. by apply requests_ready.
  - done.
  - right. by rewrite run_settings_incomplete.
Qed.

Lemma enabled_generate_click_witness :
  on_click (mount unconfigured_store)
    {| heading := "Ready to Generate Your Epic Tale";
       subtitle := "Transform your 2 quests into an epic story";
       clear_button := JSX.Falsy None;
       generate_disabled := false;
       generate_label := "Generate Epic Tale";
       task_indicator := Some "2 quests ready";
       oracle := false;
       story_panel := JSX.Falsy None;
       error_banner := None |}
    GenerateButton
  = Some (handleGenerateStory unconfigured_store)
  ∧ eligible_count (store (mount unconfigured_store)) ≠ 0.
Proof.
  split; [reflexivity |].
  exact (proj1 (proj2 (proj2
           (enabled_generate_click (mount unconfigured_store) _
              (handleGenerateStory unconfigured_store)
              eq_refl eq_refl)))).
Defined.

(** X13: a refused invocation changes one thing on the page: the error
    banner, which shows the refusal message; every other part of the view
    is as in the render before the click. *)
Theorem refusal_changes_only_banner
    (s : Store) (net : Network) (σ : State) (before : View) :
  eligible_count s = 0 ∨ settings_incomplete (settings s) →
  render σ = inr before →
  ∃ after message,
    render (final (run net (handleGenerateStory s) σ)) = inr after
    ∧ error_banner after = Some message
    ∧ (message = "No active tasks to generate story from"
       ∨ message = "Please configure your story settings first")
    ∧ heading after = heading before
    ∧ subtitle after = subtitle before
    ∧ clear_button after = clear_button before
    ∧ generate_disabled after = generate_disabled before
    ∧ generate_label after = generate_label before
    ∧ task_indicator after = task_indicator before
    ∧ oracle after = oracle before
    ∧ story_panel after = story_panel before.
Proof.
  intros Hrefused Hrender.
  assert (Hrun : ∃ message,
    (message = "No active tasks to generate story from"
     ∨ message = "Please configure your story settings first")
    ∧ final (run net (handleGenerateStory s) σ)
      = apply_action (SetError (Some message)) σ).
  { destruct (decide (eligible_count s = 0)) as [Hz|Hn].
    - eexists. split; [by left |]. by rewrite run_no_active_tasks.
    - destruct Hrefused as [Hz|Hinc]; [done |].
      eexists. split; [by right |]. by rewrite run_settings_incomplete. }
  destruct Hrun as (message & Hwhich & ->).
  unfold render in *. cbv zeta in *. cbn [apply_action store isGenerating error showStory].
  destruct (storyContent (story (store σ))) as [e|laid];
    [discriminate Hrender |].
  cbn in Hrender. injection Hrender as <-.
  eexists. exists message. split; [reflexivity |]. cbn.
  split; [| by repeat split].
  by destruct Hwhich as [-> | ->].
Qed.

Lemma refusal_changes_only_banner_witness :
  settings_incomplete (settings unconfigured_store)
  ∧ ∃ after message,
      render (final (run (answers success_response)
                       (handleGenerateStory unconfigured_store)
                       (mount unconfigured_store))) = inr after
      ∧ error_banner after = Some message.
Proof.
  assert (Hinc : settings_incomplete (settings unconfigured_store)).
  { right; left; right; reflexivity. }
  split; [exact Hinc |].
  destruct (refusal_changes_only_banner unconfigured_store
              (answers success_response) (mount unconfigured_store) _
              (or_intror Hinc) eq_refl)
    as (after & message & Hrender & Hbanner & _).
  exists after, message. split; [exact Hrender | exact Hbanner].
Defined.

(** X9: after a successful attempt whose body is a renderable story, the
    page shows that story expanded, with its title and its laid-out
    content, the clear button, the heading "Your Epic Tale" and the label
    "Regenerate Tale" on an enabled button; the oracle animation, the task
    indicator and the error banner are gone. *)
Theorem success_view (net : Network) (σ : State) (v : JSON) :
  ready (store σ) →
  succeeds (net (generate_request (store σ))) v →
  renderable v →
  ∃ view laid,
    render (final (run net (handleGenerateStory (store σ)) σ)) = inr view
    ∧ storyContent (Some v) = inr (Some laid)
    ∧ story_panel view =
        JSX.Shown {| title := story_title (Some v);
                     chevron_up := true;
                     panel_content := Some laid |}
    ∧ clear_button view = JSX.Shown tt
    ∧ heading view = "Your Epic Tale"
    ∧ generate_label view = "Regenerate Tale"
    ∧ generate_disabled view = false
    ∧ oracle view = false
    ∧ task_indicator view = None
    ∧ error_banner view = None.
Proof.
  intros H (r & Hnet & Hok & Hcontent) Hv.
  assert (Htruthy : JS.truthy v = true) by (by destruct Hv as (? & ? & -> & _)).
  destruct (storyContent_cases v Htruthy)
    as [(_ & laid & Hlaid) | (Hbad & _)]; [| done].
  pose proof H as [Hcount _]. unfold eligible_count in Hcount.
  validated H.
  cbn. rewrite Hnet. cbn. rewrite Hok. cbn.
  unfold JS.json. rewrite Hcontent. cbn.
  unfold render. cbv zeta.
  cbn [store story store_setStory isGenerating error showStory tasks].
  rewrite Hlaid. cbn [JSX.and_then].
  eexists. exists laid. split; [reflexivity |]. split; [exact Hlaid |].
  cbn. unfold JSX.and, JSX.truthy_opt. rewrite Htruthy. cbn.
  apply Nat.eqb_neq in Hcount. rewrite Hcount.
  by repeat split.
Qed.

Lemma success_view_witness :
  renderable new_story
  ∧ ∃ view laid,
      render (final (run (answers success_response)
                       (handleGenerateStory (store (mount sample_store)))
                       (mount sample_store))) = inr view
      ∧ storyContent (Some new_story) = inr (Some laid).
Proof.
  assert (Hv : renderable new_story).
  { eexists _, _. split; [reflexivity |]. split; [reflexivity |].
    repeat constructor; discriminate. }
  split; [exact Hv |].
  destruct (success_view (answers success_response) (mount sample_store)
              new_story sample_store_ready
              (ex_intro _ success_response (conj eq_refl (conj eq_refl eq_refl)))
              Hv)
    as (view & laid & Hrender & Hlaid & _).
  exists view, laid. split; [exact Hrender | exact Hlaid].
Defined.

(** X8: the handler stores a success body without looking at its shape: when
    the body is truthy but not a renderable story (no [transformedTasks]
    array, or a [null] entry in it), the component function throws a
    [TypeError] at the render that follows the successful attempt. *)
Theorem unrenderable_success_breaks_render
    (s : Store) (net : Network) (σ : State) (v : JSON) :
  ready s →
  succeeds (net (generate_request s)) v →
  JS.truthy v = true →
  ¬ renderable v →
  ∃ message,
    render (final (run net (handleGenerateStory s) σ))
    = inl (ErrorObject "TypeError" message).
Proof.
  intros H (r & Hnet & Hok & Hcontent) Htruthy Hbad.
  destruct (storyContent_cases v Htruthy)
    as [(Hv & _) | (_ & message & Hthrows)]; [done |].
  validated H.
  cbn. rewrite Hnet. cbn. rewrite Hok. cbn.
  unfold JS.json. rewrite Hcontent. cbn.
  unfold render. cbv zeta.
  cbn [store story store_setStory isGenerating error showStory tasks].
  rewrite Hthrows. by exists message.
Qed.

Lemma unrenderable_success_breaks_render_witness :
  ¬ renderable (JObj [("title", JStr "T")])
  ∧ ∃ message,
      render (final (run (answers title_only)
                       (handleGenerateStory sample_store)
                       (mount sample_store)))
      = inl (ErrorObject "TypeError" message).
Proof.
  assert (Hbad : ¬ renderable (JObj [("title", JStr "T")])).
  { intros (fields & items & [= <-] & Hprop & _). discriminate Hprop. }
  split; [exact Hbad |].
  exact (unrenderable_success_breaks_render sample_store (answers title_only)
           (mount sample_store) (JObj [("title", JStr "T")])
           sample_store_ready
           (ex_intro _ title_only (conj eq_refl (conj eq_refl eq_refl)))
           eq_refl Hbad).
Defined.

(** X15: after clearing, the component function always returns its tree,
    also when the story before made it throw: the story region and the
    clear button are gone, so neither can be clicked, the heading invites to
    generate, and an error shown before is still shown. *)
Theorem clear_recovers_render (net : Network) (σ : State) :
  let cleared := final (run net handleClearStory σ) in
  ∃ view,
    render cleared = inr view
    ∧ story_panel view = JSX.Falsy None
    ∧ clear_button view = JSX.Falsy None
    ∧ on_click cleared view ClearButton = None
    ∧ on_click cleared view StoryHeader = None
    ∧ heading view = "Ready to Generate Your Epic Tale"
    ∧ (∀ message, error σ = Some message → message ≠ EmptyString →
         error_banner view = Some message).
Proof.
  cbn. eexists. split; [reflexivity |]. cbn.
  repeat split. intros message -> Hne.
  by destruct (String.eqb_spec message EmptyString).
Qed.

(** X14: after a failure response whose body follows the endpoint's
    interface, the page shows the error banner with the stored message, and
    the story region and the clear button exactly as before the attempt: an
    earlier story stays on the page beside the error. *)
Theorem failure_banner_beside_story
    (s : Store) (net : Network) (σ : State)
    (r : Response) (v : JSON) (before : View) :
  ready s →
  net (generate_request s) = Resolved r →
  ok r = false →
  content r = Parsed v →
  plain_failure_body v →
  render σ = inr before →
  ∃ after message,
    render (final (run net (handleGenerateStory s) σ)) = inr after
    ∧ error (final (run net (handleGenerateStory s) σ)) = Some message
    ∧ error_banner after = Some message
    ∧ story_panel after = story_panel before
    ∧ clear_button after = clear_button before
    ∧ heading after = heading before
    ∧ oracle after = false.
Proof.
  intros H Hnet Hok Hcontent (fields & -> & Hfield) Hrender.
  validated H.
  cbn. rewrite Hnet. cbn. rewrite Hok. cbn.
  unfold JS.json. rewrite Hcontent. cbn.
  assert (Hnew : ∃ message, message ≠ EmptyString ∧
    JS.new_Error (JS.or (JS.own_property "error" fields)
                    (JStr "Failed to generate story"))
    = inr (ErrorObject "Error" message)).
  { destruct Hfield as [-> | [m ->]]; cbn.
    - by exists "Failed to generate story".
    - destruct (String.eqb_spec m EmptyString) as [Heq|Hne]; cbn.
      + by exists "Failed to generate story".
      + by exists m. }
  destruct Hnew as (message & Hne & ->). cbn.
  unfold render in *. cbv zeta in *.
  cbn [store isGenerating error showStory].
  destruct (storyContent (story (store σ))) as [e|laid];
    [discriminate Hrender |].
  cbn in Hrender. injection Hrender as <-.
  eexists. exists message. split; [reflexivity |]. cbn.
  destruct (String.eqb_spec message EmptyString); [done |].
  by repeat split.
Qed.

Lemma failure_banner_beside_story_witness :
  plain_failure_body (JObj [("error", JStr "rate limited")])
  ∧ ∃ after message,
      render (final (run (answers rate_limited)
                       (handleGenerateStory story_store)
                       (mount story_store))) = inr after
      ∧ error_banner after = Some message
      ∧ JSX.is_shown (story_panel after) = true.
Proof.
  assert (Hplain : plain_failure_body (JObj [("error", JStr "rate limited")])).
  { eexists. split; [reflexivity |]. right. by eexists. }
  assert (Hready : ready story_store).
  { split; [by vm_compute |].
    intros [H|[H|H]]; destruct H as [H|H]; vm_compute in H; congruence. }
  split; [exact Hplain |].
  destruct (failure_banner_beside_story story_store (answers rate_limited)
              (mount story_store) rate_limited _ _
              Hready eq_refl eq_refl eq_refl Hplain eq_refl)
    as (after & message & Hrender & _ & Hbanner & Hpanel & _).
  exists after, message.
  split; [exact Hrender |]. split; [exact Hbanner |].
  rewrite Hpanel. reflexivity.
Defined.

(** X16: without a story on the page, the subtitle and the task indicator
    name the same count with the same noun, singular exactly for one active
    task; the indicator is there exactly when the count is not zero. *)
Theorem count_phrases_agree (σ : State) (view : View) :
  render σ = inr view →
  JSX.truthy_opt (story (store σ)) = false →
  let count := eligible_count (store σ) in
  subtitle view =
    "Transform your " ++ pretty count ++ " " ++ quest_noun count
      ++ " into an epic story"
  ∧ task_indicator view =
      if decide (count = 0) then None
      else Some (pretty count ++ " " ++ quest_noun count ++ " ready").
Proof.
  intros Hrender Hnone. unfold render in Hrender. cbv zeta in Hrender.
  destruct (storyContent (story (store σ))) as [e|laid];
    [discriminate Hrender |].
  cbn in Hrender. injection Hrender as <-. cbn.
  rewrite Hnone. unfold eligible_count, quest_noun. cbn.
  set (count := length (activeTasks (tasks (store σ)))).
  split.
  - f_equal. f_equal.
    destruct (Nat.eqb_spec count 1) as [Hone|Hmany];
      destruct (decide (count = 1)); try done.
  - destruct (decide (count = 0)) as [Hz|Hn].
    + by rewrite Hz.
    + destruct count as [|k]; [done |]. cbn [Nat.ltb Nat.leb].
      do 2 f_equal.
      destruct (Nat.eqb_spec (S k) 1) as [Hone|Hmany];
        destruct (decide (S k = 1)); try done.
Qed.

Lemma count_phrases_agree_witness :
  JSX.truthy_opt (story (store (mount unconfigured_store))) = false
  ∧ ∃ view,
      render (mount unconfigured_store) = inr view
      ∧ task_indicator view = Some "2 quests ready".
Proof.
  split; [reflexivity |].
  eexists. split; [reflexivity |].
  exact (proj2 (count_phrases_agree (mount unconfigured_store) _
                  eq_refl eq_refl)).
Defined.

Lemma journey_follows_transformedTasks_witness :
  JS.own_property "transformedTasks"
    [("title", JStr "T");
     ("transformedTasks", JArr [JObj [("questName", JStr "Q1")]; JStr "Q2"])]
  = Some (JArr [JObj [("questName", JStr "Q1")]; JStr "Q2"])
  ∧ ∃ laid,
      storyContent
        (Some (JObj [("title", JStr "T");
                     ("transformedTasks",
                       JArr [JObj [("questName", JStr "Q1")]; JStr "Q2"])]))
      = inr (Some laid)
      ∧ length (journey laid) = 2.
Proof.
  split; [reflexivity |].
  assert (Hall : Forall (λ quest, quest ≠ JNull)
                   [JObj [("questName", JStr "Q1")]; JStr "Q2"]).
  { repeat constructor; discriminate. }
  destruct (journey_follows_transformedTasks
              [("title", JStr "T");
               ("transformedTasks",
                 JArr [JObj [("questName", JStr "Q1")]; JStr "Q2"])]
              [JObj [("questName", JStr "Q1")]; JStr "Q2"]
              eq_refl Hall)
    as (laid & Hlaid & Hlen & _).
  exists laid. split; [exact Hlaid | exact Hlen].
Defined.

Lemma no_active_task_iff (ts : list Task) :
  activeTasks ts = [] ↔ ∀ task, task ∈ ts → status task ≠ "active".
Proof.
  unfold activeTasks. split.
  - intros Hnil task Hin Hactive.
    by apply (filter_nil_not_elem_of _ _ task Hnil Hactive).
  - intros Hnone. induction ts as [|t rest IH]; [done |].
    rewrite filter_cons. rewrite decide_False.
    + apply IH. intros task Hin. apply Hnone. by right.
    + apply Hnone. by left.
Qed.

(** X12: the generate button of a view is disabled exactly when a request is
    in progress or no task of the collection has the status "active". *)
Theorem generate_disabled_iff (σ : State) (view : View) :
  render σ = inr view →
  generate_disabled view = true
  ↔ isGenerating σ = true
    ∨ ∀ task, task ∈ tasks (store σ) → status task ≠ "active".
Proof.
  intros Hrender. unfold render in Hrender. cbv zeta in Hrender.
  destruct (storyContent (story (store σ))) as [e|laid];
    [discriminate Hrender |].
  cbn in Hrender. injection Hrender as <-. cbn.
  rewrite orb_true_iff, Nat.eqb_eq, length_zero_iff_nil, no_active_task_iff.
  tauto.
Qed.

Lemma generate_disabled_iff_witness :
  ∃ view,
    render (mount blank_store) = inr view
    ∧ (generate_disabled view = true
       ↔ isGenerating (mount blank_store) = true
         ∨ ∀ task, task ∈ tasks (store (mount blank_store)) →
                   status task ≠ "active").
Proof.
  eexists. split; [reflexivity |].
  exact (generate_disabled_iff (mount blank_store) _ eq_refl).
Defined.
